(** * The net class constraint model of pcbnew (class_netclass.h)

    A shallow embedding of the classes NETCLASS and NETCLASSES: the record of
    routing parameters with its set of member net names, and the container of
    shared net classes with its process-wide default net class. *)

From Stdlib Require Import ZArith String List.
From stdpp Require Import gmap strings list sorting.

Local Open Scope Z_scope.
Local Open Scope string_scope.

(** ** STRINGSET: the set of member net names *)

Module STRINGSET.

(** Modelled from the spec: the macro DECL_SET_FOR_SWIG( STRINGSET, wxString )
    is defined in macros.h, which is not among the sources. The header
    includes <set> and the spec gives [members] set semantics (no name
    twice), so STRINGSET is taken as std::set<wxString>: a container whose
    in-order sequence, from begin() to end(), is kept ascending for
    operator< on its keys. The sequence itself is the representation. *)
Definition t : Type := list string.

(** operator< of wxString: lexicographic comparison of the characters. *)
Definition lt (a b : string) : Prop := String.compare a b = Lt.

(** The representation invariant of std::set: strictly ascending keys. *)
Definition ok (s : t) : Prop := StronglySorted lt s.

Definition empty : t := [].

(** std::set::insert( key ): walks to the position of the key and links a
    node there unless an equal key is met. *)
Fixpoint insert (x : string) (s : t) : t :=
  match s with
  | [] => [x]
  | y :: s' =>
      match String.compare x y with
      | Lt => x :: s
      | Eq => s
      | Gt => y :: insert x s'
      end
  end.

(** std::set::erase( key ): unlinks the node with an equal key, if any. *)
Fixpoint erase (x : string) (s : t) : t :=
  match s with
  | [] => []
  | y :: s' =>
      match String.compare x y with
      | Lt => s
      | Eq => s'
      | Gt => y :: erase x s'
      end
  end.

(** An iterator is a position in the sequence: begin() is 0 and end() is
    the length. std::set::erase( iterator ) is defined for a
    dereferenceable iterator only. *)
Definition iterator : Type := nat.
Definition begin (s : t) : iterator := 0%nat.
Definition end_ (s : t) : iterator := length s.

Definition erase_at (i : iterator) (s : t) : option t :=
  if decide (i < length s)%nat then Some (delete i s) else None.

Definition clear (s : t) : t := [].

Definition size (s : t) : nat := length s.

End STRINGSET.

(** ** NETCLASS *)

Module NETCLASS.

(** typedef std::bitset<32> layerSelection: the value of the 32 bits. *)
Definition layerSelection : Type := N.

(** The signal types known to the constraint manager (anonymous enum). *)
Definition NO_TYPE : Z := 0.
Definition POWER_TYPE : Z := 1.
Definition SIGNAL_TYPE : Z := 2.
Definition MIXED_TYPE : Z := 3.

(** The topologies known to the constraint manager (anonymous enum). *)
Definition NO_SPECIAL_TOPOLOGY : Z := 0.
Definition STAR_TOPOLOGY : Z := 1.
Definition T_TOPOLOGY : Z := 2.
Definition FLYBY_TOPOLOGY : Z := 3.
Definition HORIZONTAL_TOPOLOGY : Z := 4.
Definition VERTICAL_TOPOLOGY : Z := 5.
Definition SIMPLE_DAISY_CHAIN_TOPOLOGY : Z := 6.
Definition MIDDRIVEN_DAISY_CHAIN_TOPOLOGY : Z := 7.
Definition MULTIPOINT_TOPOLOGY : Z := 8.

(** The data members of the class, private member first. The int members
    hold 32-bit values in internal units (1 nm); they are only stored and
    copied, never computed with. *)
Record t : Type := Build {
  DEFAULT_LAYER_SELECTION : layerSelection;
  m_Name : string;
  m_Description : string;
  m_Members : STRINGSET.t;
  m_Clearance : Z;
  m_TrackWidth : Z;
  m_ViaDia : Z;
  m_ViaDrill : Z;
  m_uViaDia : Z;
  m_uViaDrill : Z;
  m_diffPairWidth : Z;
  m_diffPairGap : Z;
  m_max_vias : Z;
  m_topology : Z;
  m_min_length : Z;
  m_max_length : Z;
  m_max_skew : Z;
  m_stub_length : Z;
  m_type : Z;
  m_layer : layerSelection
}.

(** The static const int DEFAULT_* members are declared in the class and
    defined in class_netclass.cpp, which is not among the sources; their
    values are a parameter of the model. *)
Record DEFAULTS : Type := {
  DEFAULT_CLEARANCE : Z;
  DEFAULT_VIA_DRILL : Z;
  DEFAULT_UVIA_DRILL : Z;
  DEFAULT_VIA_DIAMETER : Z;
  DEFAULT_UVIA_DIAMETER : Z;
  DEFAULT_TRACK_WIDTH : Z;
  DEFAULT_DIFF_PAIR_WIDTH : Z;
  DEFAULT_DIFF_PAIR_GAP : Z;
  DEFAULT_MAX_VIAS : Z;
  DEFAULT_TOPOLOGY : Z;
  DEFAULT_MIN_LENGTH : Z;
  DEFAULT_MAX_LENGTH : Z;
  DEFAULT_MAX_SKEW : Z;
  DEFAULT_STUB_LENGTH : Z;
  DEFAULT_TYPE : Z;
  DEFAULT_LAYERS : layerSelection
}.

(** Modelled from the spec: the definition of
    [const char NETCLASS::Default[]] is in class_netclass.cpp; the spec
    gives the reserved name. *)
Definition Default : string := "Default".

(** Modelled from the spec: the constructor NETCLASS( aName ) is defined in
    class_netclass.cpp. The new object has the given name, no member, and
    the library-defined default value in every parameter. *)
Definition new (d : DEFAULTS) (aName : string) : t :=
  {| DEFAULT_LAYER_SELECTION := DEFAULT_LAYERS d;
     m_Name := aName;
     m_Description := "";
     m_Members := STRINGSET.empty;
     m_Clearance := DEFAULT_CLEARANCE d;
     m_TrackWidth := DEFAULT_TRACK_WIDTH d;
     m_ViaDia := DEFAULT_VIA_DIAMETER d;
     m_ViaDrill := DEFAULT_VIA_DRILL d;
     m_uViaDia := DEFAULT_UVIA_DIAMETER d;
     m_uViaDrill := DEFAULT_UVIA_DRILL d;
     m_diffPairWidth := DEFAULT_DIFF_PAIR_WIDTH d;
     m_diffPairGap := DEFAULT_DIFF_PAIR_GAP d;
     m_max_vias := DEFAULT_MAX_VIAS d;
     m_topology := DEFAULT_TOPOLOGY d;
     m_min_length := DEFAULT_MIN_LENGTH d;
     m_max_length := DEFAULT_MAX_LENGTH d;
     m_max_skew := DEFAULT_MAX_SKEW d;
     m_stub_length := DEFAULT_STUB_LENGTH d;
     m_type := DEFAULT_TYPE d;
     m_layer := DEFAULT_LAYERS d |}.

Definition GetClass (this : t) : string := "NETCLASS".

Definition GetName (this : t) : string := m_Name this.

Definition SetName (aName : string) (this : t) : t :=
  let 'Build dl _ de me cl tw vd vr ud ur dw dg mv tp mn mx sk st ty ly := this in
  Build dl aName de me cl tw vd vr ud ur dw dg mv tp mn mx sk st ty ly.

(** unsigned GetCount() const: the size_t size, converted to unsigned. *)
Definition GetCount (this : t) : Z :=
  Z.of_nat (STRINGSET.size (m_Members this)) mod 2 ^ 32.

Definition with_Members (f : STRINGSET.t -> STRINGSET.t) (this : t) : t :=
  let 'Build dl na de me cl tw vd vr ud ur dw dg mv tp mn mx sk st ty ly := this in
  Build dl na de (f me) cl tw vd vr ud ur dw dg mv tp mn mx sk st ty ly.

Definition Clear (this : t) : t := with_Members STRINGSET.clear this.

Definition Add (aNetname : string) (this : t) : t :=
  with_Members (STRINGSET.insert aNetname) this.

Definition begin (this : t) : STRINGSET.iterator := STRINGSET.begin (m_Members this).
Definition end_ (this : t) : STRINGSET.iterator := STRINGSET.end_ (m_Members this).

(** Walking an iterator from begin() to end() visits the sequence. *)
Definition iterate (this : t) : list string := m_Members this.

(** void Remove( iterator aName ) *)
Definition Remove_at (aName : STRINGSET.iterator) (this : t) : option t :=
  s ← STRINGSET.erase_at aName (m_Members this);
  Some (with_Members (fun _ => s) this).

(** void Remove( const wxString& aName ) *)
Definition Remove (aName : string) (this : t) : t :=
  with_Members (STRINGSET.erase aName) this.

Definition NetNames (this : t) : STRINGSET.t := m_Members this.

Definition GetDescription (this : t) : string := m_Description this.
Definition SetDescription (aDesc : string) (this : t) : t :=
  let 'Build dl na _ me cl tw vd vr ud ur dw dg mv tp mn mx sk st ty ly := this in
  Build dl na aDesc me cl tw vd vr ud ur dw dg mv tp mn mx sk st ty ly.

Definition GetClearance (this : t) : Z := m_Clearance this.
Definition SetClearance (aClearance : Z) (this : t) : t :=
  let 'Build dl na de me _ tw vd vr ud ur dw dg mv tp mn mx sk st ty ly := this in
  Build dl na de me aClearance tw vd vr ud ur dw dg mv tp mn mx sk st ty ly.

Definition GetTrackWidth (this : t) : Z := m_TrackWidth this.
Definition SetTrackWidth (aWidth : Z) (this : t) : t :=
  let 'Build dl na de me cl _ vd vr ud ur dw dg mv tp mn mx sk st ty ly := this in
  Build dl na de me cl aWidth vd vr ud ur dw dg mv tp mn mx sk st ty ly.

Definition GetViaDiameter (this : t) : Z := m_ViaDia this.
Definition SetViaDiameter (aDia : Z) (this : t) : t :=
  let 'Build dl na de me cl tw _ vr ud ur dw dg mv tp mn mx sk st ty ly := this in
  Build dl na de me cl tw aDia vr ud ur dw dg mv tp mn mx sk st ty ly.

Definition GetViaDrill (this : t) : Z := m_ViaDrill this.
Definition SetViaDrill (aSize : Z) (this : t) : t :=
  let 'Build dl na de me cl tw vd _ ud ur dw dg mv tp mn mx sk st ty ly := this in
  Build dl na de me cl tw vd aSize ud ur dw dg mv tp mn mx sk st ty ly.

Definition GetuViaDiameter (this : t) : Z := m_uViaDia this.
Definition SetuViaDiameter (aSize : Z) (this : t) : t :=
  let 'Build dl na de me cl tw vd vr _ ur dw dg mv tp mn mx sk st ty ly := this in
  Build dl na de me cl tw vd vr aSize ur dw dg mv tp mn mx sk st ty ly.

Definition GetuViaDrill (this : t) : Z := m_uViaDrill this.
Definition SetuViaDrill (aSize : Z) (this : t) : t :=
  let 'Build dl na de me cl tw vd vr ud _ dw dg mv tp mn mx sk st ty ly := this in
  Build dl na de me cl tw vd vr ud aSize dw dg mv tp mn mx sk st ty ly.

Definition GetDiffPairWidth (this : t) : Z := m_diffPairWidth this.
Definition SetDiffPairWidth (aSize : Z) (this : t) : t :=
  let 'Build dl na de me cl tw vd vr ud ur _ dg mv tp mn mx sk st ty ly := this in
  Build dl na de me cl tw vd vr ud ur aSize dg mv tp mn mx sk st ty ly.

Definition GetDiffPairGap (this : t) : Z := m_diffPairGap this.
Definition SetDiffPairGap (aSize : Z) (this : t) : t :=
  let 'Build dl na de me cl tw vd vr ud ur dw _ mv tp mn mx sk st ty ly := this in
  Build dl na de me cl tw vd vr ud ur dw aSize mv tp mn mx sk st ty ly.

Definition GetMaxVias (this : t) : Z := m_max_vias this.
Definition SetMaxVias (aNumber : Z) (this : t) : t :=
  let 'Build dl na de me cl tw vd vr ud ur dw dg _ tp mn mx sk st ty ly := this in
  Build dl na de me cl tw vd vr ud ur dw dg aNumber tp mn mx sk st ty ly.

Definition GetTopology (this : t) : Z := m_topology this.
Definition SetTopology (aTopology : Z) (this : t) : t :=
  let 'Build dl na de me cl tw vd vr ud ur dw dg mv _ mn mx sk st ty ly := this in
  Build dl na de me cl tw vd vr ud ur dw dg mv aTopology mn mx sk st ty ly.

Definition GetMinLength (this : t) : Z := m_min_length this.
Definition SetMinLength (aLength : Z) (this : t) : t :=
  let 'Build dl na de me cl tw vd vr ud ur dw dg mv tp _ mx sk st ty ly := this in
  Build dl na de me cl tw vd vr ud ur dw dg mv tp aLength mx sk st ty ly.

Definition GetMaxLength (this : t) : Z := m_max_length this.
Definition SetMaxLength (aLength : Z) (this : t) : t :=
  let 'Build dl na de me cl tw vd vr ud ur dw dg mv tp mn _ sk st ty ly := this in
  Build dl na de me cl tw vd vr ud ur dw dg mv tp mn aLength sk st ty ly.

Definition GetMaxSkew (this : t) : Z := m_max_skew this.
Definition SetMaxSkew (aLength : Z) (this : t) : t :=
  let 'Build dl na de me cl tw vd vr ud ur dw dg mv tp mn mx _ st ty ly := this in
  Build dl na de me cl tw vd vr ud ur dw dg mv tp mn mx aLength st ty ly.

Definition GetStubLength (this : t) : Z := m_stub_length this.
Definition SetStubLength (aLength : Z) (this : t) : t :=
  let 'Build dl na de me cl tw vd vr ud ur dw dg mv tp mn mx sk _ ty ly := this in
  Build dl na de me cl tw vd vr ud ur dw dg mv tp mn mx sk aLength ty ly.

Definition GetType (this : t) : Z := m_type this.
Definition SetType (aType : Z) (this : t) : t :=
  let 'Build dl na de me cl tw vd vr ud ur dw dg mv tp mn mx sk st _ ly := this in
  Build dl na de me cl tw vd vr ud ur dw dg mv tp mn mx sk st aType ly.

Definition GetLayer (this : t) : layerSelection := m_layer this.
Definition SetLayer (aLayer : layerSelection) (this : t) : t :=
  let 'Build dl na de me cl tw vd vr ud ur dw dg mv tp mn mx sk st ty _ := this in
  Build dl na de me cl tw vd vr ud ur dw dg mv tp mn mx sk st ty aLayer.

(** Modelled from the spec: SetParams is declared in the header and defined
    in class_netclass.cpp. It copies every routing and electrical parameter,
    clearance through layer mask, from [aDefaults], and leaves the name, the
    description and the members alone. *)
Definition SetParams (aDefaults : t) (this : t) : t :=
  {| DEFAULT_LAYER_SELECTION := DEFAULT_LAYER_SELECTION this;
     m_Name := m_Name this;
     m_Description := m_Description this;
     m_Members := m_Members this;
     m_Clearance := GetClearance aDefaults;
     m_TrackWidth := GetTrackWidth aDefaults;
     m_ViaDia := GetViaDiameter aDefaults;
     m_ViaDrill := GetViaDrill aDefaults;
     m_uViaDia := GetuViaDiameter aDefaults;
     m_uViaDrill := GetuViaDrill aDefaults;
     m_diffPairWidth := GetDiffPairWidth aDefaults;
     m_diffPairGap := GetDiffPairGap aDefaults;
     m_max_vias := GetMaxVias aDefaults;
     m_topology := GetTopology aDefaults;
     m_min_length := GetMinLength aDefaults;
     m_max_length := GetMaxLength aDefaults;
     m_max_skew := GetMaxSkew aDefaults;
     m_stub_length := GetStubLength aDefaults;
     m_type := GetType aDefaults;
     m_layer := GetLayer aDefaults |}.

(** The mutating member functions the class declares, as calls with their
    arguments; the argument of SetParams is the object its reference
    designates. The copy assignment the compiler declares for the class
    takes its argument from another object of the process and is the call
    [assign_NETCLASS] further down. *)
Inductive mutator : Type :=
| call_SetName (aName : string)
| call_Clear
| call_Add (aNetname : string)
| call_Remove_at (aName : STRINGSET.iterator)
| call_Remove (aName : string)
| call_SetDescription (aDesc : string)
| call_SetClearance (aClearance : Z)
| call_SetTrackWidth (aWidth : Z)
| call_SetViaDiameter (aDia : Z)
| call_SetViaDrill (aSize : Z)
| call_SetuViaDiameter (aSize : Z)
| call_SetuViaDrill (aSize : Z)
| call_SetDiffPairWidth (aSize : Z)
| call_SetDiffPairGap (aSize : Z)
| call_SetMaxVias (aNumber : Z)
| call_SetTopology (aTopology : Z)
| call_SetMinLength (aLength : Z)
| call_SetMaxLength (aLength : Z)
| call_SetMaxSkew (aLength : Z)
| call_SetStubLength (aLength : Z)
| call_SetType (aType : Z)
| call_SetLayer (aLayer : layerSelection)
| call_SetParams (aDefaults : t).

(** The object after the call; [None] where the call has no defined
    behaviour (erasing through an iterator that is not dereferenceable). *)
Definition apply (m : mutator) (this : t) : option t :=
  match m with
  | call_SetName aName => Some (SetName aName this)
  | call_Clear => Some (Clear this)
  | call_Add aNetname => Some (Add aNetname this)
  | call_Remove_at aName => Remove_at aName this
  | call_Remove aName => Some (Remove aName this)
  | call_SetDescription aDesc => Some (SetDescription aDesc this)
  | call_SetClearance v => Some (SetClearance v this)
  | call_SetTrackWidth v => Some (SetTrackWidth v this)
  | call_SetViaDiameter v => Some (SetViaDiameter v this)
  | call_SetViaDrill v => Some (SetViaDrill v this)
  | call_SetuViaDiameter v => Some (SetuViaDiameter v this)
  | call_SetuViaDrill v => Some (SetuViaDrill v this)
  | call_SetDiffPairWidth v => Some (SetDiffPairWidth v this)
  | call_SetDiffPairGap v => Some (SetDiffPairGap v this)
  | call_SetMaxVias v => Some (SetMaxVias v this)
  | call_SetTopology v => Some (SetTopology v this)
  | call_SetMinLength v => Some (SetMinLength v this)
  | call_SetMaxLength v => Some (SetMaxLength v this)
  | call_SetMaxSkew v => Some (SetMaxSkew v this)
  | call_SetStubLength v => Some (SetStubLength v this)
  | call_SetType v => Some (SetType v this)
  | call_SetLayer v => Some (SetLayer v this)
  | call_SetParams aDefaults => Some (SetParams aDefaults this)
  end.

(** A sequence of calls on one object, first call first. *)
Fixpoint run (ms : list mutator) (this : t) : option t :=
  match ms with
  | [] => Some this
  | m :: ms' => this' ← apply m this; run ms' this'
  end.

Definition is_SetName (m : mutator) : bool :=
  match m with call_SetName _ => true | _ => false end.

End NETCLASS.

(** ** Shared pointers and the objects of the process *)

(** An object created by std::make_shared lives at an address and is
    reached through every copy of the shared pointer; it is destroyed only
    when no pointer to it is left, so the store below never frees. *)
Definition address : Type := positive.

(** NETCLASSPTR is std::shared_ptr<NETCLASS> (DECL_SPTR_FOR_SWIG); [None] is
    the empty pointer, which the header calls NULL. *)
Definition NETCLASSPTR : Type := option address.

(** The part of the process the two classes touch: the NETCLASS objects,
    and the function-local static [defNetClass] of NETCLASSES::GetDefault,
    which is [None] until the first call initialises it. *)
Record PROCESS : Type := {
  objects : gmap address NETCLASS.t;
  defNetClass : option address
}.

Definition process_start : PROCESS := {| objects := ∅; defNetClass := None |}.

(** std::make_shared<NETCLASS>: a new object at an address not in use. *)
Definition make_shared (c : NETCLASS.t) (s : PROCESS) : address * PROCESS :=
  let p := fresh (dom (objects s)) in
  (p, {| objects := <[p := c]> (objects s); defNetClass := defNetClass s |}).

(** Writing an object through a pointer. *)
Definition store (p : address) (c : NETCLASS.t) (s : PROCESS) : PROCESS :=
  {| objects := <[p := c]> (objects s); defNetClass := defNetClass s |}.

(** ** NETCLASSES *)

Module NETCLASSES.

(** NETCLASS_MAP is a std::map from wxString to NETCLASSPTR
    (DECL_MAP_FOR_SWIG): all the net classes except the default one. *)
Record t : Type := { m_NetClasses : gmap string address }.

(** Modelled from the spec: the constructor NETCLASSES() is defined in
    class_netclass.cpp; a registry is created empty. *)
Definition new : t := {| m_NetClasses := ∅ |}.

Definition Clear (this : t) : t := {| m_NetClasses := ∅ |}.

(** unsigned GetCount() const: the size_t size, converted to unsigned. *)
Definition GetCount (this : t) : Z :=
  Z.of_nat (size (m_NetClasses this)) mod 2 ^ 32.

(** The static local is initialised by the first call, of whichever
    NETCLASSES object, and every call returns a reference to it. *)
Definition GetDefault (d : NETCLASS.DEFAULTS) (this : t) (s : PROCESS)
  : address * PROCESS :=
  match defNetClass s with
  | Some p => (p, s)
  | None =>
      let '(p, s') := make_shared (NETCLASS.new d NETCLASS.Default) s in
      (p, {| objects := objects s'; defNetClass := Some p |})
  end.

(** Modelled from the spec: Find is declared in the header and defined in
    class_netclass.cpp. It returns the net class registered under the
    name, else the explicit not-found result, which is not the default. *)
Definition Find (aName : string) (this : t) : NETCLASSPTR :=
  m_NetClasses this !! aName.

(** Modelled from the spec: Add is declared in the header and defined in
    class_netclass.cpp. It inserts under the name of the net class and
    returns true, unless a key collides with that name: then it returns
    false and inserts nothing. The spec leaves a net class named
    "Default" to the caller and sets no guard. [None] where the pointer
    designates no object. *)
Definition Add (aNetclass : address) (this : t) (s : PROCESS) : option (bool * t) :=
  A ← objects s !! aNetclass;
  let name := NETCLASS.GetName A in
  match Find name this with
  | Some _ => Some (false, this)
  | None => Some (true, {| m_NetClasses := <[name := aNetclass]> (m_NetClasses this) |})
  end.

(** Modelled from the spec: Remove is declared in the header and defined
    in class_netclass.cpp. A net class registered under a name other than
    "Default" is detached and returned; an absent name, and "Default",
    give the not-found result. *)
Definition Remove (aNetName : string) (this : t) : NETCLASSPTR * t :=
  if decide (aNetName = NETCLASS.Default) then (None, this)
  else
    match m_NetClasses this !! aNetName with
    | Some p => (Some p, {| m_NetClasses := delete aNetName (m_NetClasses this) |})
    | None => (None, this)
    end.

Definition NetClasses (this : t) : gmap string address := m_NetClasses this.

End NETCLASSES.

(** ** Calls of the application on a registry and on the net classes *)

Record WORLD : Type := {
  registry : NETCLASSES.t;
  process : PROCESS
}.

Definition world_start : WORLD :=
  {| registry := NETCLASSES.new; process := process_start |}.

(** The calls are: the constructor and the copy constructor of NETCLASS
    through std::make_shared, a member function on the net class a pointer
    designates, the implicitly declared copy assignment [*p = *q], which
    copies every data member, the name included, and the member functions of
    NETCLASSES. Writes through the references that GetDefault() and
    NetClasses() return are no calls of this list. *)
Inductive call : Type :=
| make_NETCLASS (aName : string)
| copy_NETCLASS (q : address)
| on_NETCLASS (p : address) (m : NETCLASS.mutator)
| assign_NETCLASS (p q : address)
| NETCLASSES_Clear
| NETCLASSES_GetCount
| NETCLASSES_GetDefault
| NETCLASSES_Add (aNetclass : address)
| NETCLASSES_Remove (aNetName : string)
| NETCLASSES_Find (aName : string).

(** The world after a call; [None] where the call has no defined behaviour
    (a pointer that designates no object, an iterator out of range). *)
Definition exec (d : NETCLASS.DEFAULTS) (c : call) (w : WORLD) : option WORLD :=
  match c with
  | make_NETCLASS aName =>
      Some {| registry := registry w;
              process := (make_shared (NETCLASS.new d aName) (process w)).2 |}
  | copy_NETCLASS q =>
      B ← objects (process w) !! q;
      Some {| registry := registry w; process := (make_shared B (process w)).2 |}
  | on_NETCLASS p m =>
      A ← objects (process w) !! p;
      A' ← NETCLASS.apply m A;
      Some {| registry := registry w; process := store p A' (process w) |}
  | assign_NETCLASS p q =>
      B ← objects (process w) !! q;
      _ ← objects (process w) !! p;
      Some {| registry := registry w; process := store p B (process w) |}
  | NETCLASSES_Clear =>
      Some {| registry := NETCLASSES.Clear (registry w); process := process w |}
  | NETCLASSES_GetCount => Some w
  | NETCLASSES_GetDefault =>
      Some {| registry := registry w;
              process := (NETCLASSES.GetDefault d (registry w) (process w)).2 |}
  | NETCLASSES_Add aNetclass =>
      r ← NETCLASSES.Add aNetclass (registry w) (process w);
      Some {| registry := r.2; process := process w |}
  | NETCLASSES_Remove aNetName =>
      Some {| registry := (NETCLASSES.Remove aNetName (registry w)).2;
              process := process w |}
  | NETCLASSES_Find aName => Some w
  end.

(** The worlds the application reaches from the start of the process. *)
Inductive reachable (d : NETCLASS.DEFAULTS) : WORLD -> Prop :=
| reachable_start : reachable d world_start
| reachable_call w c w' :
    reachable d w ->
    exec d c w = Some w' ->
    reachable d w'.

(** The name of the net class a pointer designates. *)
Definition name_at (p : address) (s : PROCESS) : option string :=
  NETCLASS.GetName <$> objects s !! p.

(** In a reachable world the static pointer and the registered pointers
    designate objects. *)
Definition allocated (w : WORLD) : Prop :=
  (forall p, defNetClass (process w) = Some p -> is_Some (objects (process w) !! p)) /\
  (forall k p, NETCLASSES.m_NetClasses (registry w) !! k = Some p ->
               is_Some (objects (process w) !! p)).

(** A sequence of calls, first call first. *)
Fixpoint run_calls (d : NETCLASS.DEFAULTS) (cs : list call) (w : WORLD) : option WORLD :=
  match cs with
  | [] => Some w
  | c :: cs' => w' ← exec d c w; run_calls d cs' w'
  end.

(** Values of the DEFAULT_* constants for the examples. *)
Definition zero_defaults : NETCLASS.DEFAULTS :=
  {| NETCLASS.DEFAULT_CLEARANCE := 0; NETCLASS.DEFAULT_VIA_DRILL := 0;
     NETCLASS.DEFAULT_UVIA_DRILL := 0; NETCLASS.DEFAULT_VIA_DIAMETER := 0;
     NETCLASS.DEFAULT_UVIA_DIAMETER := 0; NETCLASS.DEFAULT_TRACK_WIDTH := 0;
     NETCLASS.DEFAULT_DIFF_PAIR_WIDTH := 0; NETCLASS.DEFAULT_DIFF_PAIR_GAP := 0;
     NETCLASS.DEFAULT_MAX_VIAS := 0; NETCLASS.DEFAULT_TOPOLOGY := 0;
     NETCLASS.DEFAULT_MIN_LENGTH := 0; NETCLASS.DEFAULT_MAX_LENGTH := 0;
     NETCLASS.DEFAULT_MAX_SKEW := 0; NETCLASS.DEFAULT_STUB_LENGTH := 0;
     NETCLASS.DEFAULT_TYPE := 0; NETCLASS.DEFAULT_LAYERS := 0%N |}.

(** The calls that work on the member set: Clear, Add and the two Remove. *)
Definition is_member_call (m : NETCLASS.mutator) : bool :=
  match m with
  | NETCLASS.call_Clear | NETCLASS.call_Add _
  | NETCLASS.call_Remove_at _ | NETCLASS.call_Remove _ => true
  | _ => false
  end.

(** The setters the header defines inline: SetName, SetDescription and the
    setters of the routing parameters, SetClearance through SetLayer. *)
Definition is_inline_setter (m : NETCLASS.mutator) : bool :=
  match m with
  | NETCLASS.call_Clear | NETCLASS.call_Add _
  | NETCLASS.call_Remove_at _ | NETCLASS.call_Remove _
  | NETCLASS.call_SetParams _ => false
  | _ => true
  end.

(** A net class with two members, for the examples. *)
Definition power_class : NETCLASS.t :=
  {| NETCLASS.DEFAULT_LAYER_SELECTION := 0%N;
     NETCLASS.m_Name := "Power";
     NETCLASS.m_Description := "supply nets";
     NETCLASS.m_Members := ["GND"; "VCC"];
     NETCLASS.m_Clearance := 200000;
     NETCLASS.m_TrackWidth := 250000;
     NETCLASS.m_ViaDia := 600000;
     NETCLASS.m_ViaDrill := 400000;
     NETCLASS.m_uViaDia := 300000;
     NETCLASS.m_uViaDrill := 100000;
     NETCLASS.m_diffPairWidth := 200000;
     NETCLASS.m_diffPairGap := 250000;
     NETCLASS.m_max_vias := 4;
     NETCLASS.m_topology := NETCLASS.MULTIPOINT_TOPOLOGY;
     NETCLASS.m_min_length := 0;
     NETCLASS.m_max_length := 0;
     NETCLASS.m_max_skew := 0;
     NETCLASS.m_stub_length := 0;
     NETCLASS.m_type := NETCLASS.POWER_TYPE;
     NETCLASS.m_layer := 3%N |}.

(** * Properties *)

(** ** The order on net names and the sorted sequence *)

Section StringSet.
Import STRINGSET.

Lemma compare_refl (a : string) : String.compare a a = Eq.
Proof.
  induction a as [|c a IH]; simpl; [done|].
  unfold Ascii.compare. by rewrite N.compare_refl.
Qed.

Lemma lt_flip (a b : string) : lt a b -> String.compare b a = Gt.
Proof. unfold lt. intros H. rewrite String.compare_antisym, H. done. Qed.

Lemma gt_flip (a b : string) : String.compare a b = Gt -> lt b a.
Proof. unfold lt. intros H. rewrite String.compare_antisym, H. done. Qed.

Lemma lt_irrefl (a : string) : ~ lt a a.
Proof. unfold lt. by rewrite compare_refl. Qed.

Lemma lt_trans (a b c : string) : lt a b -> lt b c -> lt a c.
Proof.
  intros Hab Hbc.
  assert (String.le a c) as Hle.
  { transitivity b; unfold String.le, String.leb.
    - unfold lt in Hab. by rewrite Hab.
    - unfold lt in Hbc. by rewrite Hbc. }
  unfold String.le, String.leb in Hle. unfold lt.
  destruct (String.compare a c) eqn:E; [|done|done].
  apply String.compare_eq_iff in E. subst c.
  apply lt_flip in Hab. unfold lt in Hbc. congruence.
Qed.

Lemma ok_cons (y : string) (s : t) : ok (y :: s) <-> Forall (lt y) s /\ ok s.
Proof. apply StronglySorted_cons. Qed.

Lemma elem_of_insert (x z : string) (s : t) : z ∈ insert x s <-> z = x \/ z ∈ s.
Proof.
  induction s as [|y s IH]; simpl.
  - rewrite list_elem_of_singleton, elem_of_nil. tauto.
  - destruct (String.compare x y) eqn:E.
    + apply String.compare_eq_iff in E. subst y.
      rewrite elem_of_cons. tauto.
    + rewrite elem_of_cons. tauto.
    + rewrite !elem_of_cons, IH. tauto.
Qed.

Lemma insert_ok (x : string) (s : t) : ok s -> ok (insert x s).
Proof.
  induction s as [|y s IH]; simpl; intros Hs.
  - repeat constructor.
  - apply ok_cons in Hs as [Hy Hs].
    destruct (String.compare x y) eqn:E.
    + by apply ok_cons.
    + apply ok_cons. split; [|by apply ok_cons].
      constructor; [done|].
      eapply Forall_impl; [exact Hy|]. intros z Hz. by eapply lt_trans.
    + apply ok_cons. split; [|by apply IH].
      apply Forall_forall. intros z [->|Hz]%elem_of_insert.
      * by apply gt_flip.
      * by eapply Forall_forall in Hy.
Qed.

Lemma insert_insert (x : string) (s : t) : insert x (insert x s) = insert x s.
Proof.
  induction s as [|y s IH]; simpl.
  - by rewrite compare_refl.
  - destruct (String.compare x y) eqn:E; simpl.
    + by rewrite E.
    + by rewrite compare_refl.
    + by rewrite E, IH.
Qed.

Lemma elem_of_erase (x z : string) (s : t) :
  ok s -> z ∈ erase x s <-> z <> x /\ z ∈ s.
Proof.
  induction s as [|y s IH]; simpl; intros Hs.
  - rewrite elem_of_nil. tauto.
  - apply ok_cons in Hs as [Hy Hs].
    assert (forall u, u ∈ s -> lt y u) as Hy' by by apply Forall_forall.
    destruct (String.compare x y) eqn:E.
    + apply String.compare_eq_iff in E. subst y.
      rewrite elem_of_cons. split.
      * intros Hz. split; [|by right].
        intros ->. by apply (lt_irrefl x), Hy'.
      * intros [Hne [?|?]]; done.
    + split; [|tauto]. intros Hz. split; [|done].
      intros ->. apply elem_of_cons in Hz as [->|Hz].
      * by apply lt_irrefl in E.
      * apply (lt_irrefl x). eapply lt_trans; [exact E|]. by apply Hy'.
    + rewrite !elem_of_cons, IH by done. split.
      * intros [->|[? ?]]; [|tauto]. split; [|by left].
        intros ->. by rewrite compare_refl in E.
      * intros [? [?|?]]; tauto.
Qed.

Lemma erase_ok (x : string) (s : t) : ok s -> ok (erase x s).
Proof.
  induction s as [|y s IH]; simpl; intros Hs; [done|].
  pose proof Hs as [Hy Hs']%ok_cons.
  destruct (String.compare x y) eqn:E; [done|done|].
  apply ok_cons. split; [|by apply IH].
  apply Forall_forall. intros z [_ Hz]%elem_of_erase; [|done].
  by eapply Forall_forall in Hy.
Qed.



Lemma ok_NoDup (s : t) : ok s -> NoDup s.
Proof.
  induction 1 as [|y s Hs IH Hy]; constructor; [|done].
  intros Hin. eapply Forall_forall in Hy; [|exact Hin]. by apply lt_irrefl in Hy.
Qed.

(** A strictly ascending sequence is determined by its elements. *)
Lemma ok_ext (s1 s2 : t) :
  ok s1 -> ok s2 -> (forall z, z ∈ s1 <-> z ∈ s2) -> s1 = s2.
Proof.
  intros H1 H2 Hext.
  apply (StronglySorted_unique_strong lt); [|done|done|].
  - intros a b _ _ Hab Hba. destruct (lt_irrefl a). by eapply lt_trans.
  - apply NoDup_Permutation; auto using ok_NoDup.
Qed.

End StringSet.

(** ** NETCLASS: members and parameters *)

Section NetClass.
Import NETCLASS.

Lemma members_with_Members (f : STRINGSET.t -> STRINGSET.t) (S : t) :
  m_Members (with_Members f S) = f (m_Members S).
Proof. by destruct S. Qed.

Lemma members_Add (n : string) (S : t) :
  m_Members (Add n S) = STRINGSET.insert n (m_Members S).
Proof. apply members_with_Members. Qed.

Lemma members_Remove (n : string) (S : t) :
  m_Members (Remove n S) = STRINGSET.erase n (m_Members S).
Proof. apply members_with_Members. Qed.

(** The members after Add and Remove, as a set. *)
Lemma elem_of_Add (n z : string) (S : t) :
  z ∈ iterate (Add n S) <-> z = n \/ z ∈ iterate S.
Proof. unfold iterate. rewrite members_Add. apply elem_of_insert. Qed.

Lemma elem_of_Remove (n z : string) (S : t) :
  STRINGSET.ok (m_Members S) ->
  z ∈ iterate (Remove n S) <-> z <> n /\ z ∈ iterate S.
Proof. unfold iterate. rewrite members_Remove. apply elem_of_erase. Qed.

Lemma Add_Add (n : string) (S : t) : Add n (Add n S) = Add n S.
Proof. destruct S. unfold Add. simpl. by rewrite insert_insert. Qed.




(** Every call of [mutator] but SetName keeps the name. *)
Lemma apply_name (m : mutator) (S S' : t) :
  is_SetName m = false -> apply m S = Some S' -> GetName S' = GetName S.
Proof.
  destruct m; simpl; try done; try (intros _ [= <-]; by destruct S).
  intros _. unfold Remove_at.
  destruct (STRINGSET.erase_at aName (m_Members S)); simpl; [|done].
  intros [= <-]. by destruct S.
Qed.

(** C3. After S.SetParams(T), every routing and electrical parameter of S
    (clearance, track width, via diameter and drill, micro-via diameter and
    drill, differential pair width and gap, maximum vias, topology,
    minimum and maximum length, maximum skew, stub length, signal type,
    layer mask) is that of T, and the name, the description and the
    members of S are what they were. *)
Theorem SetParams_copies_parameters_only (S T : t) :
  let S' := SetParams T S in
  (GetClearance S' = GetClearance T /\
   GetTrackWidth S' = GetTrackWidth T /\
   GetViaDiameter S' = GetViaDiameter T /\
   GetViaDrill S' = GetViaDrill T /\
   GetuViaDiameter S' = GetuViaDiameter T /\
   GetuViaDrill S' = GetuViaDrill T /\
   GetDiffPairWidth S' = GetDiffPairWidth T /\
   GetDiffPairGap S' = GetDiffPairGap T /\
   GetMaxVias S' = GetMaxVias T /\
   GetTopology S' = GetTopology T /\
   GetMinLength S' = GetMinLength T /\
   GetMaxLength S' = GetMaxLength T /\
   GetMaxSkew S' = GetMaxSkew T /\
   GetStubLength S' = GetStubLength T /\
   GetType S' = GetType T /\
   GetLayer S' = GetLayer T) /\
  GetName S' = GetName S /\
  GetDescription S' = GetDescription S /\
  NetNames S' = NetNames S.
Proof. simpl. repeat split. Qed.

(** C6. Calling S.Add(n) twice leaves exactly one occurrence of n in the
    members of S: the second call changes nothing, and both calls return
    normally. *)
Theorem Add_twice_one_occurrence (S : t) (n : string) :
  STRINGSET.ok (m_Members S) ->
  run [call_Add n; call_Add n] S = Some (Add n (Add n S)) /\
  Add n (Add n S) = Add n S /\
  count_occ string_dec (iterate (Add n (Add n S))) n = 1%nat.
Proof.
  intros Hok. split; [done|]. split; [apply Add_Add|].
  rewrite Add_Add.
  apply NoDup_count_occ'.
  - unfold iterate. rewrite members_Add. by apply NoDup_ListNoDup, ok_NoDup, insert_ok.
  - apply list_elem_of_In, elem_of_Add. by left.
Qed.

Lemma Add_twice_one_occurrence_witness :
  STRINGSET.ok (m_Members (Add "GND" (new zero_defaults "Power"))) /\
  count_occ string_dec
    (iterate (Add "VCC" (Add "VCC" (Add "GND" (new zero_defaults "Power"))))) "VCC"
  = 1%nat.
Proof.
  assert (STRINGSET.ok (m_Members (Add "GND" (new zero_defaults "Power")))) as Hok.
  { repeat constructor. }
  split; [exact Hok|].
  exact (proj2 (proj2 (Add_twice_one_occurrence _ "VCC" Hok))).
Defined.

(** C9. S.Clear() leaves the members of S empty, and the name, the
    description and every routing and electrical parameter of S, the layer
    mask included, as they were. *)
Theorem Clear_empties_members_only (S : t) :
  let S' := Clear S in
  NetNames S' = [] /\
  GetCount S' = 0 /\
  GetName S' = GetName S /\
  GetDescription S' = GetDescription S /\
  GetClearance S' = GetClearance S /\
  GetTrackWidth S' = GetTrackWidth S /\
  GetViaDiameter S' = GetViaDiameter S /\
  GetViaDrill S' = GetViaDrill S /\
  GetuViaDiameter S' = GetuViaDiameter S /\
  GetuViaDrill S' = GetuViaDrill S /\
  GetDiffPairWidth S' = GetDiffPairWidth S /\
  GetDiffPairGap S' = GetDiffPairGap S /\
  GetMaxVias S' = GetMaxVias S /\
  GetTopology S' = GetTopology S /\
  GetMinLength S' = GetMinLength S /\
  GetMaxLength S' = GetMaxLength S /\
  GetMaxSkew S' = GetMaxSkew S /\
  GetStubLength S' = GetStubLength S /\
  GetType S' = GetType S /\
  GetLayer S' = GetLayer S /\
  DEFAULT_LAYER_SELECTION S' = DEFAULT_LAYER_SELECTION S.
Proof. destruct S. simpl. repeat split. Qed.



End NetClass.

(** ** NETCLASSES: the registry and the shared default *)

Lemma fresh_unused (s : PROCESS) : objects s !! fresh (dom (objects s)) = None.
Proof. apply not_elem_of_dom, is_fresh. Qed.

Lemma make_shared_objects (c : NETCLASS.t) (s : PROCESS) (p : address) :
  is_Some (objects s !! p) ->
  objects (make_shared c s).2 !! p = objects s !! p.
Proof.
  intros Hp. simpl. apply lookup_insert_ne. intros <-.
  rewrite fresh_unused in Hp. by destruct Hp.
Qed.

Lemma GetDefault_cases (d : NETCLASS.DEFAULTS) (r : NETCLASSES.t) (s : PROCESS) :
  (exists p, defNetClass s = Some p /\ NETCLASSES.GetDefault d r s = (p, s)) \/
  (defNetClass s = None /\
   NETCLASSES.GetDefault d r s =
     ((make_shared (NETCLASS.new d NETCLASS.Default) s).1,
      {| objects := objects (make_shared (NETCLASS.new d NETCLASS.Default) s).2;
         defNetClass := Some (make_shared (NETCLASS.new d NETCLASS.Default) s).1 |})).
Proof.
  unfold NETCLASSES.GetDefault. destruct (defNetClass s) as [p|]; [left; eauto|by right].
Qed.

Lemma GetDefault_objects (d : NETCLASS.DEFAULTS) (r : NETCLASSES.t) (s : PROCESS)
    (p : address) :
  is_Some (objects s !! p) ->
  objects (NETCLASSES.GetDefault d r s).2 !! p = objects s !! p.
Proof.
  intros Hp. destruct (GetDefault_cases d r s) as [(q & _ & ->)|[_ ->]]; [done|].
  by apply make_shared_objects.
Qed.

Lemma GetDefault_static (d : NETCLASS.DEFAULTS) (r : NETCLASSES.t) (s : PROCESS) :
  defNetClass (NETCLASSES.GetDefault d r s).2 = Some (NETCLASSES.GetDefault d r s).1.
Proof. by destruct (GetDefault_cases d r s) as [(q & ? & ->)|[_ ->]]. Qed.

(** The registry does not enter the result: the static belongs to the
    member function, not to the object it is called on. *)
Lemma GetDefault_any_registry (d : NETCLASS.DEFAULTS) (r1 r2 : NETCLASSES.t) (s : PROCESS) :
  NETCLASSES.GetDefault d r1 s = NETCLASSES.GetDefault d r2 s.
Proof. reflexivity. Qed.

(** What a call does to the objects and to the static pointer. *)
Lemma exec_objects (d : NETCLASS.DEFAULTS) (c : call) (w w' : WORLD) (p : address) :
  exec d c w = Some w' ->
  is_Some (objects (process w) !! p) ->
  (forall m, c <> on_NETCLASS p m) ->
  (forall q, c <> assign_NETCLASS p q) ->
  objects (process w') !! p = objects (process w) !! p.
Proof.
  intros Hexec Hp Hc Ha. destruct c; simpl in Hexec; simplify_option_eq; simpl; try done.
  - by apply make_shared_objects.
  - by apply make_shared_objects.
  - apply lookup_insert_ne. intros ->. by eapply Hc.
  - apply lookup_insert_ne. intros ->. by eapply Ha.
  - by apply GetDefault_objects.
Qed.

Lemma exec_on_NETCLASS (d : NETCLASS.DEFAULTS) (p : address) (m : NETCLASS.mutator)
    (w w' : WORLD) :
  exec d (on_NETCLASS p m) w = Some w' ->
  exists A A', objects (process w) !! p = Some A /\ NETCLASS.apply m A = Some A' /\
    objects (process w') !! p = Some A' /\ registry w' = registry w /\
    defNetClass (process w') = defNetClass (process w).
Proof.
  simpl. intros Hexec. simplify_option_eq. eexists _, _. repeat split; try done.
  apply lookup_insert_eq.
Qed.

Lemma exec_assign_NETCLASS (d : NETCLASS.DEFAULTS) (p q : address) (w w' : WORLD) :
  exec d (assign_NETCLASS p q) w = Some w' ->
  exists A B, objects (process w) !! p = Some A /\ objects (process w) !! q = Some B /\
    objects (process w') !! p = Some B /\ registry w' = registry w /\
    defNetClass (process w') = defNetClass (process w).
Proof.
  simpl. intros Hexec.
  destruct (objects (process w) !! q) as [B|] eqn:EB; simpl in Hexec; [|done].
  destruct (objects (process w) !! p) as [A|] eqn:EA; simpl in Hexec; [|done].
  injection Hexec as <-. exists A, B. simpl. repeat split; try done.
  apply lookup_insert_eq.
Qed.

Lemma call_cases (c : call) (p : address) :
  (exists m, c = on_NETCLASS p m) \/ (exists q, c = assign_NETCLASS p q) \/
  ((forall m, c <> on_NETCLASS p m) /\ (forall q, c <> assign_NETCLASS p q)).
Proof.
  destruct c as [| |p' m|p' q| | | | | |];
    try (right; right; split; intros; discriminate).
  - destruct (decide (p' = p)) as [->|]; [left; eauto|].
    right; right; split; intros; congruence.
  - destruct (decide (p' = p)) as [->|]; [right; left; eauto|].
    right; right; split; intros; congruence.
Qed.

Lemma exec_allocated (d : NETCLASS.DEFAULTS) (c : call) (w w' : WORLD) (p : address) :
  exec d c w = Some w' ->
  is_Some (objects (process w) !! p) -> is_Some (objects (process w') !! p).
Proof.
  intros Hexec Hp.
  destruct (call_cases c p) as [[m ->]|[[q ->]|[Hm Hq]]].
  - apply exec_on_NETCLASS in Hexec as (A & A' & _ & _ & -> & _). eauto.
  - apply exec_assign_NETCLASS in Hexec as (A & B & _ & _ & -> & _). eauto.
  - erewrite exec_objects; eauto.
Qed.

Lemma exec_static (d : NETCLASS.DEFAULTS) (c : call) (w w' : WORLD) (p : address) :
  exec d c w = Some w' ->
  defNetClass (process w) = Some p -> defNetClass (process w') = Some p.
Proof.
  intros Hexec Hp. destruct c; simpl in Hexec; simplify_option_eq; simpl; try done.
  destruct (GetDefault_cases d (registry w) (process w)) as [(q & ? & ->)|[? _]];
    [done|congruence].
Qed.

(** Only SetName on a net class and copy assignment to it write its name. *)
Lemma exec_name (d : NETCLASS.DEFAULTS) (c : call) (w w' : WORLD) (p : address) :
  exec d c w = Some w' ->
  is_Some (objects (process w) !! p) ->
  (forall aName, c <> on_NETCLASS p (NETCLASS.call_SetName aName)) ->
  (forall q, c <> assign_NETCLASS p q) ->
  name_at p (process w') = name_at p (process w).
Proof.
  intros Hexec Hp Hc Ha. unfold name_at.
  destruct (call_cases c p) as [[m ->]|[[q ->]|[Hm Hq]]].
  - apply exec_on_NETCLASS in Hexec as (A & A' & -> & Happ & -> & _). simpl. f_equal.
    eapply apply_name; [|done]. destruct m; try done. by destruct (Hc aName).
  - by destruct (Ha q).
  - erewrite exec_objects; eauto.
Qed.

Lemma Add_Some (a : address) (r r' : NETCLASSES.t) (s : PROCESS) (b : bool) :
  NETCLASSES.Add a r s = Some (b, r') ->
  exists A, objects s !! a = Some A /\
    ((b = false /\ r' = r /\ is_Some (NETCLASSES.m_NetClasses r !! NETCLASS.GetName A)) \/
     (b = true /\ NETCLASSES.m_NetClasses r !! NETCLASS.GetName A = None /\
      r' = {| NETCLASSES.m_NetClasses :=
                <[NETCLASS.GetName A := a]> (NETCLASSES.m_NetClasses r) |})).
Proof.
  unfold NETCLASSES.Add, NETCLASSES.Find.
  destruct (objects s !! a) as [A|]; simpl; [|done].
  intros Hadd. exists A. split; [done|].
  destruct (NETCLASSES.m_NetClasses r !! NETCLASS.GetName A) as [q|] eqn:E;
    injection Hadd as <- <-; [left|right]; eauto.
Qed.

Lemma exec_registry (d : NETCLASS.DEFAULTS) (c : call) (w w' : WORLD) (k : string)
    (p : address) :
  exec d c w = Some w' ->
  NETCLASSES.m_NetClasses (registry w') !! k = Some p ->
  NETCLASSES.m_NetClasses (registry w) !! k = Some p \/
  (c = NETCLASSES_Add p /\ is_Some (objects (process w) !! p)).
Proof.
  intros Hexec Hk. destruct c; simpl in Hexec.
  - injection Hexec as <-. auto.
  - destruct (objects (process w) !! q); simpl in Hexec; [|done].
    injection Hexec as <-. auto.
  - apply (exec_on_NETCLASS d) in Hexec as (_ & _ & _ & _ & _ & Hr & _).
    rewrite Hr in Hk. auto.
  - apply (exec_assign_NETCLASS d) in Hexec as (_ & _ & _ & _ & _ & Hr & _).
    rewrite Hr in Hk. auto.
  - injection Hexec as <-. simpl in Hk. by rewrite lookup_empty in Hk.
  - injection Hexec as <-. auto.
  - injection Hexec as <-. auto.
  - destruct (NETCLASSES.Add aNetclass (registry w) (process w)) as [[b r]|] eqn:EAdd;
      simpl in Hexec; [|done].
    injection Hexec as <-. simpl in Hk.
    apply Add_Some in EAdd as (A & HA & [(_ & -> & _)|(_ & _ & ->)]); [auto|].
    simpl in Hk. destruct (decide (k = NETCLASS.GetName A)) as [->|Hne].
    + rewrite lookup_insert_eq in Hk. injection Hk as ->. right. eauto.
    + rewrite lookup_insert_ne in Hk by done. auto.
  - injection Hexec as <-. simpl in Hk. unfold NETCLASSES.Remove in Hk.
    case_decide; [auto|].
    destruct (NETCLASSES.m_NetClasses (registry w) !! aNetName) eqn:E; [|auto].
    simpl in Hk. destruct (decide (aNetName = k)) as [->|Hne].
    + by rewrite lookup_delete_eq in Hk.
    + rewrite lookup_delete_ne in Hk by done. auto.
  - injection Hexec as <-. auto.
Qed.

Lemma exec_allocated_world (d : NETCLASS.DEFAULTS) (c : call) (w w' : WORLD) :
  exec d c w = Some w' -> allocated w -> allocated w'.
Proof.
  intros Hexec [Hdef Hreg]. split.
  - intros p Hp.
    destruct (defNetClass (process w)) as [q|] eqn:E.
    + pose proof (exec_static _ _ _ _ _ Hexec E). simplify_eq.
      eapply exec_allocated; eauto.
    + destruct c; simpl in Hexec; simplify_option_eq; simpl in *; try congruence.
      destruct (GetDefault_cases d (registry w) (process w)) as [(q & ? & _)|[_ Heq]];
        [congruence|].
      rewrite Heq in *. simpl in *. simplify_eq. rewrite lookup_insert_eq. eauto.
  - intros k p Hk.
    destruct (exec_registry _ _ _ _ _ _ Hexec Hk) as [?|[_ ?]];
      eapply exec_allocated; eauto.
Qed.

Lemma reachable_allocated (d : NETCLASS.DEFAULTS) (w : WORLD) :
  reachable d w -> allocated w.
Proof.
  induction 1 as [|w c w' _ IH Hexec].
  - split; [done|]. intros k p. simpl. by rewrite lookup_empty.
  - by eapply exec_allocated_world.
Qed.

Lemma run_calls_reachable (d : NETCLASS.DEFAULTS) (cs : list call) (w w' : WORLD) :
  reachable d w -> run_calls d cs w = Some w' -> reachable d w'.
Proof.
  revert w. induction cs as [|c cs IH]; simpl; intros w Hw.
  - by intros [= <-].
  - destruct (exec d c w) as [w1|] eqn:E; simpl; [|done].
    apply IH. by econstructor.
Qed.

(** C1. NETCLASSES::Add(A) returns true and registers A under the name of A
    only if no net class is registered under that name; if the name is
    already a key, Add returns false and the map is unchanged. *)
Theorem Add_only_unique_name (r : NETCLASSES.t) (s : PROCESS) (a : address)
    (A : NETCLASS.t) :
  objects s !! a = Some A ->
  let name := NETCLASS.GetName A in
  (NETCLASSES.m_NetClasses r !! name = None ->
   NETCLASSES.Add a r s =
     Some (true, {| NETCLASSES.m_NetClasses := <[name := a]> (NETCLASSES.m_NetClasses r) |})) /\
  (is_Some (NETCLASSES.m_NetClasses r !! name) -> NETCLASSES.Add a r s = Some (false, r)) /\
  (forall r', NETCLASSES.Add a r s = Some (true, r') ->
     NETCLASSES.m_NetClasses r !! name = None /\
     NETCLASSES.m_NetClasses r' !! name = Some a /\
     forall k, k <> name ->
       NETCLASSES.m_NetClasses r' !! k = NETCLASSES.m_NetClasses r !! k).
Proof.
  intros HA name. split; [|split].
  - intros Hnone. unfold NETCLASSES.Add, NETCLASSES.Find. rewrite HA. simpl.
    fold name. by rewrite Hnone.
  - intros [q Hq]. unfold NETCLASSES.Add, NETCLASSES.Find. rewrite HA. simpl.
    fold name. by rewrite Hq.
  - intros r' Hadd.
    apply Add_Some in Hadd as (A' & HA' & [(? & _)|(_ & Hnone & ->)]); [done|].
    rewrite HA in HA'. injection HA' as <-. fold name in Hnone |- *.
    split; [done|]. split; [apply lookup_insert_eq|].
    intros k Hk. simpl. by apply lookup_insert_ne.
Qed.

Lemma Add_only_unique_name_witness :
  let A := NETCLASS.new zero_defaults "Power" in
  let B := NETCLASS.SetClearance 200000 (NETCLASS.new zero_defaults "Power") in
  let s := {| objects := {[1%positive := A; 2%positive := B]}; defNetClass := None |} in
  let r := {| NETCLASSES.m_NetClasses := {["Power" := 1%positive]} |} in
  NETCLASSES.Add 1%positive NETCLASSES.new s = Some (true, r) /\
  NETCLASSES.Add 2%positive r s = Some (false, r).
Proof.
  intros A B s r. split.
  - exact (proj1 (Add_only_unique_name NETCLASSES.new s 1%positive A eq_refl) eq_refl).
  - refine (proj1 (proj2 (Add_only_unique_name r s 2%positive B eq_refl)) _).
    exists 1%positive. reflexivity.
Defined.

(** C2. The claim does not hold of the code: the net class GetDefault()
    returns is reached through its shared pointer, and after SetName on it,
    or after copy assignment to it, GetDefault() returns a net class named
    "Power", not "Default". *)
Lemma GetDefault_renamed :
  (w ← run_calls zero_defaults
         [NETCLASSES_GetDefault;
          on_NETCLASS 1%positive (NETCLASS.call_SetName "Power")] world_start;
   name_at (NETCLASSES.GetDefault zero_defaults (registry w) (process w)).1
           (NETCLASSES.GetDefault zero_defaults (registry w) (process w)).2)
  = Some "Power" /\
  (w ← run_calls zero_defaults
         [NETCLASSES_GetDefault; make_NETCLASS "Power";
          assign_NETCLASS 1%positive 2%positive] world_start;
   name_at (NETCLASSES.GetDefault zero_defaults (registry w) (process w)).1
           (NETCLASSES.GetDefault zero_defaults (registry w) (process w)).2)
  = Some "Power" /\
  (NETCLASSES.GetDefault zero_defaults NETCLASSES.new process_start).1 = 1%positive /\
  "Power" <> NETCLASS.Default.
Proof.
  split; [vm_compute; reflexivity|]. split; [vm_compute; reflexivity|].
  split; [vm_compute; reflexivity|done].
Qed.

(** C4, as the code has it. While a net class is registered, every call
    other than SetName on it and copy assignment to it leaves its name as it
    was. SetName on it gives it the new name, copy assignment to it gives it
    the name of the assigned net class, and both leave the registry, keys
    included, as it was. *)
Theorem registered_name_only_SetName_or_assignment (d : NETCLASS.DEFAULTS) (w w' : WORLD)
    (c : call) (k : string) (p : address) :
  reachable d w ->
  NETCLASSES.m_NetClasses (registry w) !! k = Some p ->
  exec d c w = Some w' ->
  ((forall aName, c <> on_NETCLASS p (NETCLASS.call_SetName aName)) ->
   (forall q, c <> assign_NETCLASS p q) ->
   name_at p (process w') = name_at p (process w)) /\
  (forall aName, c = on_NETCLASS p (NETCLASS.call_SetName aName) ->
   name_at p (process w') = Some aName /\ registry w' = registry w) /\
  (forall q, c = assign_NETCLASS p q ->
   name_at p (process w') = name_at q (process w) /\ registry w' = registry w).
Proof.
  intros Hreach Hk Hexec. split; [|split].
  - intros Hc Ha. eapply exec_name; [done| |done|done].
    pose proof (reachable_allocated _ _ Hreach) as [_ Hreg]. by eapply Hreg.
  - intros aName ->.
    apply exec_on_NETCLASS in Hexec as (A & A' & _ & Happ & HA' & Hr & _).
    simpl in Happ. injection Happ as <-. split; [|done].
    unfold name_at. rewrite HA'. by destruct A.
  - intros q ->.
    apply exec_assign_NETCLASS in Hexec as (A & B & _ & HB & HB' & Hr & _).
    split; [|done]. unfold name_at. by rewrite HB, HB'.
Qed.

Lemma registered_name_only_SetName_or_assignment_witness :
  exists w w',
    run_calls zero_defaults [make_NETCLASS "Power"; NETCLASSES_Add 1%positive] world_start
    = Some w /\
    exec zero_defaults (on_NETCLASS 1%positive (NETCLASS.call_SetParams
                          (NETCLASS.new zero_defaults "Default"))) w = Some w' /\
    name_at 1%positive (process w') = name_at 1%positive (process w).
Proof.
  destruct (run_calls zero_defaults [make_NETCLASS "Power"; NETCLASSES_Add 1%positive]
              world_start) as [w|] eqn:E; [|by vm_compute in E].
  assert (NETCLASSES.m_NetClasses (registry w) !! "Power" = Some 1%positive) as Hk.
  { vm_compute in E. injection E as <-. vm_compute. reflexivity. }
  destruct (exec zero_defaults (on_NETCLASS 1%positive (NETCLASS.call_SetParams
              (NETCLASS.new zero_defaults "Default"))) w) as [w'|] eqn:E'.
  - exists w, w'. split; [done|]. split; [done|].
    refine (proj1 (registered_name_only_SetName_or_assignment zero_defaults w w' _ "Power"
                     1%positive _ Hk E') _ _).
    + eapply run_calls_reachable; [constructor|exact E].
    + intros aName. discriminate.
    + intros q. discriminate.
  - exfalso. vm_compute in E. injection E as <-. by vm_compute in E'.
Defined.

(** C4, as stated, fails: the net class registered under "Power" is named
    "Signal" after SetName, and is still registered under "Power". *)
Lemma registered_set_renamed :
  (w ← run_calls zero_defaults
         [make_NETCLASS "Power"; NETCLASSES_Add 1%positive] world_start;
   Some (NETCLASSES.Find "Power" (registry w), name_at 1%positive (process w)))
  = Some (Some 1%positive, Some "Power") /\
  (w ← run_calls zero_defaults
         [make_NETCLASS "Power"; NETCLASSES_Add 1%positive;
          on_NETCLASS 1%positive (NETCLASS.call_SetName "Signal")] world_start;
   Some (NETCLASSES.Find "Power" (registry w), name_at 1%positive (process w)))
  = Some (Some 1%positive, Some "Signal").
Proof. split; vm_compute; reflexivity. Qed.

(** C5. GetDefault() on two registries of one process returns the same
    pointer, to the one default net class created by the first call and kept
    by every later call, so a change made to the default through one
    registry is read through the other. *)
Theorem GetDefault_shared_by_registries (d : NETCLASS.DEFAULTS) (r1 r2 : NETCLASSES.t)
    (s : PROCESS) :
  let p1 := (NETCLASSES.GetDefault d r1 s).1 in
  let s1 := (NETCLASSES.GetDefault d r1 s).2 in
  NETCLASSES.GetDefault d r2 s = NETCLASSES.GetDefault d r1 s /\
  NETCLASSES.GetDefault d r2 s1 = (p1, s1) /\
  (forall (r : NETCLASSES.t) (c : call) (w' : WORLD),
     exec d c {| registry := r; process := s1 |} = Some w' ->
     NETCLASSES.GetDefault d r2 (process w') = (p1, process w')) /\
  (forall (m : NETCLASS.mutator) (w' : WORLD),
     exec d (on_NETCLASS p1 m) {| registry := r1; process := s1 |} = Some w' ->
     exists A A',
       objects s1 !! p1 = Some A /\
       NETCLASS.apply m A = Some A' /\
       objects (NETCLASSES.GetDefault d r2 (process w')).2
         !! (NETCLASSES.GetDefault d r2 (process w')).1 = Some A').
Proof.
  intros p1 s1.
  pose proof (GetDefault_static d r1 s) as Hstatic. fold p1 s1 in Hstatic.
  assert (forall (r : NETCLASSES.t) (c : call) (w' : WORLD),
            exec d c {| registry := r; process := s1 |} = Some w' ->
            NETCLASSES.GetDefault d r2 (process w') = (p1, process w')) as Hlater.
  { intros r c w' Hexec. unfold NETCLASSES.GetDefault.
    by rewrite (exec_static _ _ _ _ p1 Hexec Hstatic). }
  split; [done|].
  split; [unfold NETCLASSES.GetDefault at 1; by rewrite Hstatic|].
  split; [exact Hlater|].
  intros m w' Hexec. rewrite (Hlater _ _ _ Hexec). simpl.
  apply exec_on_NETCLASS in Hexec as (A & A' & HA & Happ & HA' & _). eauto.
Qed.

Lemma GetDefault_shared_by_registries_witness :
  let r1 := NETCLASSES.new in
  let r2 := {| NETCLASSES.m_NetClasses := {["Power" := 7%positive]} |} in
  let s1 := (NETCLASSES.GetDefault zero_defaults r1 process_start).2 in
  exists w',
    exec zero_defaults (on_NETCLASS 1%positive (NETCLASS.call_SetClearance 200000))
      {| registry := r1; process := s1 |} = Some w' /\
    NETCLASS.GetClearance <$>
      objects (NETCLASSES.GetDefault zero_defaults r2 (process w')).2
        !! (NETCLASSES.GetDefault zero_defaults r2 (process w')).1
    = Some 200000.
Proof.
  intros r1 r2 s1.
  destruct (exec zero_defaults (on_NETCLASS 1%positive (NETCLASS.call_SetClearance 200000))
              {| registry := r1; process := s1 |}) as [w'|] eqn:E; [|by vm_compute in E].
  exists w'. split; [done|].
  destruct (proj2 (proj2 (proj2
    (GetDefault_shared_by_registries zero_defaults r1 r2 process_start)))
    (NETCLASS.call_SetClearance 200000) w' E) as (A & A' & HA & Happ & ->).
  vm_compute in HA. injection HA as <-.
  vm_compute in Happ. injection Happ as <-. reflexivity.
Defined.

(** C7. An empty registry has count 0; after Add of a net class named
    "Power" the count is 1 and Find("Power") returns that very net class;
    after Remove("Power") the count is 0 and Find("Power") returns the
    not-found result; a second Remove("Power") returns the not-found result
    as well. *)
Theorem registry_scenario (s : PROCESS) (p : address) (A : NETCLASS.t) :
  objects s !! p = Some A ->
  NETCLASS.GetName A = "Power" ->
  let r0 := NETCLASSES.new in
  let r1 := {| NETCLASSES.m_NetClasses := {["Power" := p]} |} in
  NETCLASSES.GetCount r0 = 0 /\
  NETCLASSES.Add p r0 s = Some (true, r1) /\
  NETCLASSES.GetCount r1 = 1 /\
  NETCLASSES.Find "Power" r1 = Some p /\
  NETCLASSES.Remove "Power" r1 = (Some p, r0) /\
  NETCLASSES.GetCount r0 = 0 /\
  NETCLASSES.Find "Power" r0 = None /\
  NETCLASSES.Remove "Power" r0 = (None, r0).
Proof.
  intros HA Hname r0 r1.
  split; [reflexivity|].
  split.
  { unfold NETCLASSES.Add. rewrite HA. simpl. rewrite Hname. reflexivity. }
  split.
  { unfold NETCLASSES.GetCount, r1. simpl. by rewrite map_size_singleton. }
  split; [apply lookup_singleton_eq|].
  split.
  { unfold NETCLASSES.Remove, r1. simpl. rewrite lookup_singleton_eq.
    by rewrite delete_singleton_eq. }
  split; [reflexivity|]. split; [reflexivity|reflexivity].
Qed.

Lemma registry_scenario_witness :
  let s := (make_shared (NETCLASS.new zero_defaults "Power") process_start).2 in
  NETCLASSES.Add 1%positive NETCLASSES.new s
  = Some (true, {| NETCLASSES.m_NetClasses := {["Power" := 1%positive]} |}).
Proof.
  intros s.
  exact (proj1 (proj2 (registry_scenario s 1%positive
    (NETCLASS.new zero_defaults "Power") eq_refl eq_refl))).
Defined.

(** C8. After NETCLASSES::Clear() the count of the registry is 0, and
    GetDefault() returns what it would have returned before: the same
    default net class, no member of which Clear() has written. *)
Theorem Clear_keeps_default (d : NETCLASS.DEFAULTS) (w : WORLD) :
  let w' := {| registry := NETCLASSES.Clear (registry w); process := process w |} in
  exec d NETCLASSES_Clear w = Some w' /\
  NETCLASSES.GetCount (registry w') = 0 /\
  NETCLASSES.GetDefault d (registry w') (process w')
  = NETCLASSES.GetDefault d (registry w) (process w) /\
  forall p, objects (process w') !! p = objects (process w) !! p.
Proof. repeat split. Qed.

(** ** The member set: insertion, removal and count *)

Section Members.
Import STRINGSET.

Lemma insert_member (x : string) (s : t) : ok s -> x ∈ s -> insert x s = s.
Proof.
  intros Hs Hx. apply ok_ext; [by apply insert_ok|done|].
  intros z. rewrite elem_of_insert. split; [intros [->|?]; done|auto].
Qed.

Lemma erase_absent (x : string) (s : t) : ok s -> x ∉ s -> erase x s = s.
Proof.
  intros Hs Hx. apply ok_ext; [by apply erase_ok|done|].
  intros z. rewrite elem_of_erase by done. split; [tauto|].
  intros Hz. split; [|done]. by intros ->.
Qed.

Lemma erase_insert_new (x : string) (s : t) :
  ok s -> x ∉ s -> erase x (insert x s) = s.
Proof.
  intros Hs Hx. apply ok_ext; [by apply erase_ok, insert_ok|done|].
  intros z. rewrite elem_of_erase by by apply insert_ok.
  rewrite elem_of_insert. split; [tauto|].
  intros Hz. split; [by intros ->|auto].
Qed.

Lemma insert_erase_member (x : string) (s : t) :
  ok s -> x ∈ s -> insert x (erase x s) = s.
Proof.
  intros Hs Hx. apply ok_ext; [by apply insert_ok, erase_ok|done|].
  intros z. rewrite elem_of_insert, elem_of_erase by done.
  split; [intros [->|[_ ?]]; done|].
  intros Hz. destruct (decide (z = x)); auto.
Qed.

Lemma length_insert_new (x : string) (s : t) :
  x ∉ s -> length (insert x s) = S (length s).
Proof.
  induction s as [|y s IH]; simpl; intros Hx; [done|].
  apply not_elem_of_cons in Hx as [Hne Hx].
  destruct (String.compare x y) eqn:E; simpl.
  - by apply String.compare_eq_iff in E.
  - done.
  - by rewrite IH.
Qed.

Lemma length_erase_member (x : string) (s : t) :
  ok s -> x ∈ s -> S (length (erase x s)) = length s.
Proof.
  induction s as [|y s IH]; simpl; intros Hs Hx; [by apply elem_of_nil in Hx|].
  apply ok_cons in Hs as [Hy Hs].
  destruct (String.compare x y) eqn:E; simpl.
  - done.
  - exfalso. apply elem_of_cons in Hx as [->|Hx].
    + by apply lt_irrefl in E.
    + eapply Forall_forall in Hy; [|exact Hx].
      apply (lt_irrefl x). by eapply lt_trans.
  - f_equal. apply IH; [done|].
    apply elem_of_cons in Hx as [->|Hx]; [|done].
    by rewrite compare_refl in E.
Qed.

Lemma delete_erase (i : nat) (x : string) (s : t) :
  ok s -> s !! i = Some x -> delete i s = erase x s.
Proof.
  revert i. induction s as [|y s IH]; intros [|i] Hs Hi; simpl in *; try done.
  - injection Hi as ->. by rewrite compare_refl.
  - apply ok_cons in Hs as [Hy Hs].
    assert (lt y x) as Hyx.
    { eapply Forall_forall in Hy; [done|]. by eapply list_elem_of_lookup_2. }
    rewrite (lt_flip _ _ Hyx). f_equal. by apply IH.
Qed.

Lemma insert_insert_comm (x y : string) (s : t) :
  ok s -> insert x (insert y s) = insert y (insert x s).
Proof.
  intros Hs. apply ok_ext; [by do 2 apply insert_ok..|].
  intros z. rewrite !elem_of_insert. tauto.
Qed.

Lemma erase_insert_comm (x y : string) (s : t) :
  ok s -> x <> y -> erase x (insert y s) = insert y (erase x s).
Proof.
  intros Hs Hne. apply ok_ext; [by apply erase_ok, insert_ok|by apply insert_ok, erase_ok|].
  intros z. rewrite elem_of_erase by by apply insert_ok.
  rewrite !elem_of_insert, elem_of_erase by done.
  split; [tauto|]. intros [->|[? ?]]; [|tauto]. split; [congruence|auto].
Qed.

End Members.

Section NetClassMembers.
Import NETCLASS.

Lemma with_Members_same (f : STRINGSET.t -> STRINGSET.t) (S : t) :
  f (m_Members S) = m_Members S -> with_Members f S = S.
Proof. destruct S. simpl. by intros ->. Qed.

Lemma with_Members_eq (f g : STRINGSET.t -> STRINGSET.t) (S : t) :
  f (m_Members S) = g (m_Members S) -> with_Members f S = with_Members g S.
Proof. destruct S. simpl. by intros ->. Qed.

Lemma with_Members_twice (f g : STRINGSET.t -> STRINGSET.t) (S : t) :
  with_Members g (with_Members f S) = with_Members (fun s => g (f s)) S.
Proof. by destruct S. Qed.

Lemma power_class_ok : STRINGSET.ok (m_Members power_class).
Proof. repeat constructor. Qed.

Lemma GetCount_length (S : t) :
  GetCount S = Z.of_nat (length (iterate S)) mod 2 ^ 32.
Proof. reflexivity. Qed.

(** X1. Add and Remove act on the members as on a set: after Add(n) the
    stored names are the old ones and n, after Remove(n) the old ones
    except n. *)
Theorem Add_Remove_members (S : t) (n z : string) :
  STRINGSET.ok (m_Members S) ->
  (z ∈ iterate (Add n S) <-> z = n \/ z ∈ iterate S) /\
  (z ∈ iterate (Remove n S) <-> z <> n /\ z ∈ iterate S).
Proof. intros Hok. split; [apply elem_of_Add|by apply elem_of_Remove]. Qed.

Lemma Add_Remove_members_witness :
  ("AGND" ∈ iterate (Add "AGND" power_class)) /\
  ~ ("GND" ∈ iterate (Remove "GND" power_class)).
Proof.
  pose proof (Add_Remove_members power_class "AGND" "AGND" power_class_ok) as [HA _].
  pose proof (Add_Remove_members power_class "GND" "GND" power_class_ok) as [_ HR].
  split; [apply HA; by left|]. intros Hin. apply HR in Hin as [Hne _]. done.
Defined.

(** X2. Add of a name that is a member already leaves the net class as it
    was, the count included. *)
Theorem Add_member_unchanged (S : t) (n : string) :
  STRINGSET.ok (m_Members S) ->
  n ∈ iterate S ->
  Add n S = S /\ GetCount (Add n S) = GetCount S.
Proof.
  intros Hok Hn.
  assert (Add n S = S) as ->; [|done].
  apply with_Members_same. by apply insert_member.
Qed.

Lemma Add_member_unchanged_witness : Add "VCC" power_class = power_class.
Proof.
  refine (proj1 (Add_member_unchanged power_class "VCC" power_class_ok _)).
  apply list_elem_of_In. simpl. auto.
Defined.

(** X3. Remove of a name that is no member leaves the net class as it was:
    a missing name is no error. *)
Theorem Remove_absent_unchanged (S : t) (n : string) :
  STRINGSET.ok (m_Members S) ->
  n ∉ iterate S ->
  Remove n S = S.
Proof. intros Hok Hn. apply with_Members_same. by apply erase_absent. Qed.

Lemma Remove_absent_unchanged_witness : Remove "AGND" power_class = power_class.
Proof.
  refine (Remove_absent_unchanged power_class "AGND" power_class_ok _).
  intros Hin. apply list_elem_of_In in Hin. simpl in Hin.
  destruct Hin as [?|[?|[]]]; discriminate.
Defined.

(** X4. Remove undoes Add: adding a name that was no member and removing
    it again gives the net class back. *)
Theorem Remove_undoes_Add (S : t) (n : string) :
  STRINGSET.ok (m_Members S) ->
  n ∉ iterate S ->
  Remove n (Add n S) = S.
Proof.
  intros Hok Hn. unfold Remove, Add. rewrite with_Members_twice.
  apply with_Members_same. by apply erase_insert_new.
Qed.

Lemma Remove_undoes_Add_witness :
  Remove "AGND" (Add "AGND" power_class) = power_class.
Proof.
  refine (Remove_undoes_Add power_class "AGND" power_class_ok _).
  intros Hin. apply list_elem_of_In in Hin. simpl in Hin.
  destruct Hin as [?|[?|[]]]; discriminate.
Defined.

(** X5. Add undoes Remove: removing a member and adding it again gives the
    net class back, with the member at its place in the order. *)
Theorem Add_undoes_Remove (S : t) (n : string) :
  STRINGSET.ok (m_Members S) ->
  n ∈ iterate S ->
  Add n (Remove n S) = S.
Proof.
  intros Hok Hn. unfold Remove, Add. rewrite with_Members_twice.
  apply with_Members_same. by apply insert_erase_member.
Qed.

Lemma Add_undoes_Remove_witness :
  Add "GND" (Remove "GND" power_class) = power_class.
Proof.
  refine (Add_undoes_Remove power_class "GND" power_class_ok _).
  apply list_elem_of_In. simpl. auto.
Defined.

(** X6. GetCount follows the members, as an unsigned 32-bit value: Add of a
    new name raises it by one, Remove of a member lowers it by one, both
    modulo 2^32; below 2^32 members it is their number. *)
Theorem GetCount_Add_Remove (S : t) (n : string) :
  STRINGSET.ok (m_Members S) ->
  (n ∉ iterate S -> GetCount (Add n S) = (GetCount S + 1) mod 2 ^ 32) /\
  (n ∈ iterate S -> (GetCount (Remove n S) + 1) mod 2 ^ 32 = GetCount S) /\
  (Z.of_nat (length (iterate S)) < 2 ^ 32 ->
   GetCount S = Z.of_nat (length (iterate S))) /\
  0 <= GetCount S < 2 ^ 32.
Proof.
  intros Hok. rewrite !GetCount_length. unfold iterate.
  rewrite members_Add, members_Remove.
  split; [|split; [|split]].
  - intros Hn. rewrite length_insert_new by done.
    rewrite Nat2Z.inj_succ, <- Z.add_1_r. by rewrite Zplus_mod_idemp_l.
  - intros Hn. rewrite <- (length_erase_member n (m_Members S)) by done.
    rewrite Nat2Z.inj_succ, <- Z.add_1_r. by rewrite Zplus_mod_idemp_l.
  - intros Hlt. apply Z.mod_small. lia.
  - apply Z.mod_pos_bound. lia.
Qed.

Lemma GetCount_Add_Remove_witness :
  GetCount (Add "AGND" power_class) = 3 /\ GetCount (Remove "GND" power_class) = 1.
Proof.
  pose proof (GetCount_Add_Remove power_class "AGND" power_class_ok) as (HA & _).
  pose proof (GetCount_Add_Remove power_class "GND" power_class_ok) as (_ & HR & _).
  split.
  - rewrite HA; [reflexivity|].
    intros Hin. apply list_elem_of_In in Hin. simpl in Hin.
    destruct Hin as [?|[?|[]]]; discriminate.
  - reflexivity.
Defined.

(** X7. Remove through an iterator removes the name the iterator points
    at, as Remove of that name does. *)
Theorem Remove_at_is_Remove (S : t) (i : STRINGSET.iterator) (n : string) :
  STRINGSET.ok (m_Members S) ->
  iterate S !! i = Some n ->
  Remove_at i S = Some (Remove n S).
Proof.
  intros Hok Hi. unfold Remove_at, Remove, STRINGSET.erase_at.
  rewrite decide_True by by eapply lookup_lt_Some.
  simpl. f_equal. apply with_Members_eq. by apply delete_erase.
Qed.

Lemma Remove_at_is_Remove_witness :
  Remove_at (begin power_class) power_class = Some (Remove "GND" power_class).
Proof. exact (Remove_at_is_Remove power_class 0%nat "GND" power_class_ok eq_refl). Defined.

(** X8. The order of the calls does not matter: two Add commute, and Add
    and Remove of different names commute. *)
Theorem Add_Remove_commute (S : t) (a b : string) :
  STRINGSET.ok (m_Members S) ->
  Add a (Add b S) = Add b (Add a S) /\
  (a <> b -> Remove a (Add b S) = Add b (Remove a S)).
Proof.
  intros Hok. unfold Remove, Add. rewrite !with_Members_twice. split.
  - apply with_Members_eq. by apply insert_insert_comm.
  - intros Hne. apply with_Members_eq. by apply erase_insert_comm.
Qed.

Lemma Add_Remove_commute_witness :
  Add "VDD" (Add "AGND" power_class) = Add "AGND" (Add "VDD" power_class) /\
  Remove "GND" (Add "AGND" power_class) = Add "AGND" (Remove "GND" power_class).
Proof.
  pose proof (Add_Remove_commute power_class "VDD" "AGND" power_class_ok) as [H1 _].
  pose proof (Add_Remove_commute power_class "GND" "AGND" power_class_ok) as [_ H2].
  split; [exact H1|]. apply H2. discriminate.
Defined.

(** X9. The inline setters always return, and none of them touches the
    members; all but SetName leave the name as well. *)
Theorem setters_keep_members (m : mutator) (S : t) :
  is_inline_setter m = true ->
  exists S', apply m S = Some S' /\
    NetNames S' = NetNames S /\
    GetCount S' = GetCount S /\
    (is_SetName m = false -> GetName S' = GetName S).
Proof.
  intros Hm. destruct m; try discriminate Hm; simpl;
    (eexists; split; [reflexivity|]); by destruct S.
Qed.

Lemma setters_keep_members_witness :
  NetNames (SetName "Supply" power_class) = ["GND"; "VCC"].
Proof.
  destruct (setters_keep_members (call_SetName "Supply") power_class eq_refl)
    as (S' & Happ & Hmem & _).
  simpl in Happ. injection Happ as <-. exact Hmem.
Defined.

(** X10. Clear, Add and the two Remove change the members only: the name,
    the description and every parameter stay as they were. *)
Theorem member_calls_keep_parameters (m : mutator) (S S' : t) :
  is_member_call m = true ->
  apply m S = Some S' ->
  S' = with_Members (fun _ => NetNames S') S /\
  GetName S' = GetName S /\
  GetDescription S' = GetDescription S /\
  GetClearance S' = GetClearance S /\
  GetLayer S' = GetLayer S.
Proof.
  intros Hm Happ.
  assert (exists s, S' = with_Members (fun _ => s) S) as [s ->].
  { destruct m; try discriminate Hm; simpl in Happ.
    - injection Happ as <-. eexists. apply with_Members_eq. reflexivity.
    - injection Happ as <-. eexists. apply with_Members_eq. reflexivity.
    - unfold Remove_at in Happ.
      destruct (STRINGSET.erase_at aName (m_Members S)) as [s|]; simpl in Happ; [|done].
      injection Happ as <-. by exists s.
    - injection Happ as <-. eexists. apply with_Members_eq. reflexivity. }
  by destruct S.
Qed.

Lemma member_calls_keep_parameters_witness :
  GetName (Add "AGND" power_class) = "Power".
Proof.
  exact (proj1 (proj2 (member_calls_keep_parameters (call_Add "AGND") power_class _
                         eq_refl eq_refl))).
Defined.

End NetClassMembers.


